(** * The OpenGL rasterizer cache of yuzu: surface parameters and cache model

    A shallow embedding of [src/video_core/renderer_opengl/gl_rasterizer_cache.h].
    The header holds the whole of [SurfaceParams] (format tables, format
    conversions, [SizeInBytes], [IsOverlappingRegion]) and
    [CachedSurface::GetGLBytesPerPixel]; these are embedded from the code.
    The bodies of [CachedSurface::LoadGLBuffer], [CachedSurface::FlushGLBuffer]
    and of the [RasterizerCacheOpenGL] members are only declared in the
    header; they are modelled from the specification and marked as such. *)

From Stdlib Require Import ZArith Lia List Bool.
From stdpp Require Import base decidable countable gmap list fin_maps.

Local Open Scope Z_scope.

(** ** Faults and results

    Fallible code returns a [result]: either a value or the fault that
    stopped the program. *)

Inductive fault : Type :=
| AssertionFailed                 (* ASSERT(cond) evaluated with cond false *)
| UnreachableCode                 (* UNREACHABLE() *)
| UnimplementedFormat (logged : Z) (* NGLOG_CRITICAL("Unimplemented format={}") then UNREACHABLE() *)
| DivisionByZero.                 (* an unsigned [/] or [%] whose divisor is zero *)

Inductive result (A : Type) : Type :=
| Ok (a : A)
| Fault (f : fault).

Arguments Ok {A} a.
Arguments Fault {A} f.

#[global] Instance fault_eq_dec : EqDecision fault.
Proof. solve_decision. Defined.

#[global] Instance result_ret : MRet result := fun _ a => Ok a.
#[global] Instance result_bind : MBind result := fun _ _ k m =>
  match m with
  | Ok a => k a
  | Fault f => Fault f
  end.

Definition is_Ok {A} (r : result A) : bool :=
  match r with Ok _ => true | Fault _ => false end.

(** Modelled from the spec: the [ASSERT] and [UNREACHABLE] macros of
    [common/assert.h], which the header includes but which is not part of the
    sources at hand.  The specification classes a failed assertion as a fatal
    programming-error fault and an unmapped format as a fatal condition that is
    logged before the program stops: neither returns to the caller. *)
Definition ASSERT (cond : bool) : result unit :=
  if cond then Ok tt else Fault AssertionFailed.

Definition UNREACHABLE {A} : result A := Fault UnreachableCode.

(** ** Machine integers *)

Definition u32 (z : Z) : Z := z mod 2 ^ 32.
Definition u64 (z : Z) : Z := z mod 2 ^ 64.

(** [static_cast<size_t>] of an [int]-based enumerator. *)
Definition static_cast_size_t (z : Z) : Z := u64 z.

Definition in_u32 (z : Z) : bool := (0 <=? z) && (z <? 2 ^ 32).
Definition in_u64 (z : Z) : bool := (0 <=? z) && (z <? 2 ^ 64).

Definition u32_mul (a b : Z) : Z := u32 (a * b).

(** Unsigned division and remainder: a zero divisor is undefined behaviour in
    C++ (a hardware trap on the usual targets), kept apart from assertions. *)
Definition u32_div (a b : Z) : result Z :=
  if b =? 0 then Fault DivisionByZero else Ok (a / b).

Definition u32_rem (a b : Z) : result Z :=
  if b =? 0 then Fault DivisionByZero else Ok (a mod b).

Definition CHAR_BIT : Z := 8.

(** ** Guest enumerations

    [Tegra::RenderTargetFormat] and [Tegra::Texture::TextureFormat] are declared
    in headers that are not at hand.  Each is taken with the enumerators the
    cache names, and one more constructor for every other value of the type,
    carrying the value that the log statement prints. *)
Module Tegra.

Inductive RenderTargetFormat : Type :=
| RGBA8_UNORM
| RGBA8_SRGB
| RGB10_A2_UNORM
| RGBA16_FLOAT
| R11G11B10_FLOAT
| RenderTargetFormat_other (raw : Z).

Module Texture.

Inductive TextureFormat : Type :=
| A8R8G8B8
| B5G6R5
| A2B10G10R10
| A1B5G5R5
| R8
| R16_G16_B16_A16
| BF10GF11RF11
| DXT1
| DXT23
| DXT45
| DXN1
| ASTC_2D_4X4
| TextureFormat_other (raw : Z).

End Texture.

End Tegra.

(** ** struct SurfaceParams *)

Inductive PixelFormat : Type :=
| ABGR8
| B5G6R5
| A2B10G10R10
| A1B5G5R5
| R8
| RGBA16F
| R11FG11FB10F
| DXT1
| DXT23
| DXT45
| DXN1
| ASTC_2D_4X4
| Max
| Invalid.

(** The enumerator values. *)
Definition PixelFormat_value (format : PixelFormat) : Z :=
  match format with
  | ABGR8 => 0
  | B5G6R5 => 1
  | A2B10G10R10 => 2
  | A1B5G5R5 => 3
  | R8 => 4
  | RGBA16F => 5
  | R11FG11FB10F => 6
  | DXT1 => 7
  | DXT23 => 8
  | DXT45 => 9
  | DXN1 => 10
  | ASTC_2D_4X4 => 11
  | Max => 12
  | Invalid => 255
  end.

#[global] Instance PixelFormat_eq_dec : EqDecision PixelFormat.
Proof. solve_decision. Defined.

Definition MaxPixelFormat : Z := static_cast_size_t (PixelFormat_value Max).

Inductive ComponentType : Type :=
| ComponentType_Invalid
| SNorm
| UNorm
| SInt
| UInt
| Float.

Inductive SurfaceType : Type :=
| ColorTexture
| Depth
| DepthStencil
| Fill
| SurfaceType_Invalid.

#[global] Instance ComponentType_eq_dec : EqDecision ComponentType.
Proof. solve_decision. Defined.

#[global] Instance SurfaceType_eq_dec : EqDecision SurfaceType.
Proof. solve_decision. Defined.

(** [std::array<u32, MaxPixelFormat>::operator[]] on an index already checked
    against [size()]. *)
Definition array_at (table : list Z) (i : Z) : Z := nth (Z.to_nat i) table 0.

Definition array_size (table : list Z) : Z := Z.of_nat (length table).

Definition compression_factor_table : list Z :=
  [ 1  (* ABGR8 *)
  ; 1  (* B5G6R5 *)
  ; 1  (* A2B10G10R10 *)
  ; 1  (* A1B5G5R5 *)
  ; 1  (* R8 *)
  ; 1  (* RGBA16F *)
  ; 1  (* R11FG11FB10F *)
  ; 4  (* DXT1 *)
  ; 4  (* DXT23 *)
  ; 4  (* DXT45 *)
  ; 4  (* DXN1 *)
  ; 4  (* ASTC_2D_4X4 *)
  ].

Definition GetCompressionFactor (format : PixelFormat) : result Z :=
  if bool_decide (format = Invalid) then Ok 0
  else
    _ ← ASSERT (static_cast_size_t (PixelFormat_value format)
                  <? array_size compression_factor_table);
    Ok (array_at compression_factor_table
          (static_cast_size_t (PixelFormat_value format))).

Definition bpp_table : list Z :=
  [ 32   (* ABGR8 *)
  ; 16   (* B5G6R5 *)
  ; 32   (* A2B10G10R10 *)
  ; 16   (* A1B5G5R5 *)
  ; 8    (* R8 *)
  ; 64   (* RGBA16F *)
  ; 32   (* R11FG11FB10F *)
  ; 64   (* DXT1 *)
  ; 128  (* DXT23 *)
  ; 128  (* DXT45 *)
  ; 64   (* DXN1 *)
  ; 32   (* ASTC_2D_4X4 *)
  ].

Definition GetFormatBpp (format : PixelFormat) : result Z :=
  if bool_decide (format = Invalid) then Ok 0
  else
    _ ← ASSERT (static_cast_size_t (PixelFormat_value format)
                  <? array_size bpp_table);
    Ok (array_at bpp_table (static_cast_size_t (PixelFormat_value format))).

Definition PixelFormatFromRenderTargetFormat
    (format : Tegra.RenderTargetFormat) : result PixelFormat :=
  match format with
  | Tegra.RGBA8_UNORM
  | Tegra.RGBA8_SRGB => Ok ABGR8
  | Tegra.RGB10_A2_UNORM => Ok A2B10G10R10
  | Tegra.RGBA16_FLOAT => Ok RGBA16F
  | Tegra.R11G11B10_FLOAT => Ok R11FG11FB10F
  | Tegra.RenderTargetFormat_other raw => Fault (UnimplementedFormat (u32 raw))
  end.

Definition PixelFormatFromTextureFormat
    (format : Tegra.Texture.TextureFormat) : result PixelFormat :=
  match format with
  | Tegra.Texture.A8R8G8B8 => Ok ABGR8
  | Tegra.Texture.B5G6R5 => Ok B5G6R5
  | Tegra.Texture.A2B10G10R10 => Ok A2B10G10R10
  | Tegra.Texture.A1B5G5R5 => Ok A1B5G5R5
  | Tegra.Texture.R8 => Ok R8
  | Tegra.Texture.R16_G16_B16_A16 => Ok RGBA16F
  | Tegra.Texture.BF10GF11RF11 => Ok R11FG11FB10F
  | Tegra.Texture.DXT1 => Ok DXT1
  | Tegra.Texture.DXT23 => Ok DXT23
  | Tegra.Texture.DXT45 => Ok DXT45
  | Tegra.Texture.DXN1 => Ok DXN1
  | Tegra.Texture.ASTC_2D_4X4 => Ok ASTC_2D_4X4
  | Tegra.Texture.TextureFormat_other raw => Fault (UnimplementedFormat (u32 raw))
  end.

Definition TextureFormatFromPixelFormat
    (format : PixelFormat) : result Tegra.Texture.TextureFormat :=
  match format with
  | ABGR8 => Ok Tegra.Texture.A8R8G8B8
  | B5G6R5 => Ok Tegra.Texture.B5G6R5
  | A2B10G10R10 => Ok Tegra.Texture.A2B10G10R10
  | A1B5G5R5 => Ok Tegra.Texture.A1B5G5R5
  | R8 => Ok Tegra.Texture.R8
  | RGBA16F => Ok Tegra.Texture.R16_G16_B16_A16
  | R11FG11FB10F => Ok Tegra.Texture.BF10GF11RF11
  | DXT1 => Ok Tegra.Texture.DXT1
  | DXT23 => Ok Tegra.Texture.DXT23
  | DXT45 => Ok Tegra.Texture.DXT45
  | DXN1 => Ok Tegra.Texture.DXN1
  | ASTC_2D_4X4 => Ok Tegra.Texture.ASTC_2D_4X4
  | Max | Invalid => UNREACHABLE
  end.

Definition GetFormatType (pixel_format : PixelFormat) : result SurfaceType :=
  if static_cast_size_t (PixelFormat_value pixel_format) <? MaxPixelFormat
  then Ok ColorTexture
  else
    _ ← ASSERT false;
    Ok SurfaceType_Invalid.

Record SurfaceParams : Type := {
  addr : Z;              (* Tegra::GPUVAddr, u64 *)
  is_tiled : bool;
  block_height : Z;      (* u32 *)
  pixel_format : PixelFormat;
  component_type : ComponentType;
  type : SurfaceType;
  width : Z;             (* u32 *)
  height : Z;            (* u32 *)
  unaligned_height : Z;  (* u32 *)
  size_in_bytes : Z      (* size_t *)
}.

(** The values a [SurfaceParams] object can hold: each integer field within
    the range of its C++ type. *)
Definition representable (p : SurfaceParams) : bool :=
  in_u64 (addr p) && in_u32 (block_height p) && in_u32 (width p)
  && in_u32 (height p) && in_u32 (unaligned_height p)
  && in_u64 (size_in_bytes p).

(** The arithmetic is carried out on [u32] operands; the quotient is widened
    to [size_t] on return. *)
Definition SizeInBytes (p : SurfaceParams) : result Z :=
  compression_factor ← GetCompressionFactor (pixel_format p);
  wr ← u32_rem (width p) compression_factor;
  _ ← ASSERT (wr =? 0);
  hr ← u32_rem (height p) compression_factor;
  _ ← ASSERT (hr =? 0);
  wq ← u32_div (width p) compression_factor;
  hq ← u32_div (height p) compression_factor;
  bpp ← GetFormatBpp (pixel_format p);
  u32_div (u32_mul (u32_mul wq hq) bpp) CHAR_BIT.

Definition IsOverlappingRegion
    (p : SurfaceParams) (region_addr region_size : Z) : bool :=
  (addr p <=? u64 (region_addr + region_size))
  && (region_addr <=? u64 (addr p + size_in_bytes p)).

(** ** class CachedSurface: the part defined in the header *)

Definition GetGLBytesPerPixel (format : PixelFormat) : result Z :=
  if bool_decide (format = Invalid) then Ok 0
  else
    bpp ← GetFormatBpp format;
    u32_div bpp CHAR_BIT.

(** ** struct SurfaceKey

    [SurfaceKey::Create] copies the descriptor into the key's [state]. *)
Record SurfaceKey : Type := { state : SurfaceParams }.

Definition SurfaceKey_Create (params : SurfaceParams) : SurfaceKey :=
  {| state := params |}.

(** Modelled from the spec: equality and hashing of [Common::HashableStruct]
    ([common/hash.h] is not at hand).  Two keys are equal iff their descriptors
    are field-wise equal; the hash only has to agree with that equality, which
    is what makes the key usable in a finite map. *)
#[global] Instance SurfaceParams_eq_dec : EqDecision SurfaceParams.
Proof. solve_decision. Defined.

#[global] Instance SurfaceKey_eq_dec : EqDecision SurfaceKey.
Proof. solve_decision. Defined.

Definition PixelFormat_of_value (v : Z) : option PixelFormat :=
  match v with
  | 0 => Some ABGR8
  | 1 => Some B5G6R5
  | 2 => Some A2B10G10R10
  | 3 => Some A1B5G5R5
  | 4 => Some R8
  | 5 => Some RGBA16F
  | 6 => Some R11FG11FB10F
  | 7 => Some DXT1
  | 8 => Some DXT23
  | 9 => Some DXT45
  | 10 => Some DXN1
  | 11 => Some ASTC_2D_4X4
  | 12 => Some Max
  | 255 => Some Invalid
  | _ => None
  end.

Definition ComponentType_value (c : ComponentType) : Z :=
  match c with
  | ComponentType_Invalid => 0
  | SNorm => 1
  | UNorm => 2
  | SInt => 3
  | UInt => 4
  | Float => 5
  end.

Definition ComponentType_of_value (v : Z) : option ComponentType :=
  match v with
  | 0 => Some ComponentType_Invalid
  | 1 => Some SNorm
  | 2 => Some UNorm
  | 3 => Some SInt
  | 4 => Some UInt
  | 5 => Some Float
  | _ => None
  end.

Definition SurfaceType_value (t : SurfaceType) : Z :=
  match t with
  | ColorTexture => 0
  | Depth => 1
  | DepthStencil => 2
  | Fill => 3
  | SurfaceType_Invalid => 4
  end.

Definition SurfaceType_of_value (v : Z) : option SurfaceType :=
  match v with
  | 0 => Some ColorTexture
  | 1 => Some Depth
  | 2 => Some DepthStencil
  | 3 => Some Fill
  | 4 => Some SurfaceType_Invalid
  | _ => None
  end.

#[global] Program Instance PixelFormat_countable : Countable PixelFormat :=
  inj_countable PixelFormat_value PixelFormat_of_value _.
Next Obligation. by intros []. Qed.

#[global] Program Instance ComponentType_countable : Countable ComponentType :=
  inj_countable ComponentType_value ComponentType_of_value _.
Next Obligation. by intros []. Qed.

#[global] Program Instance SurfaceType_countable : Countable SurfaceType :=
  inj_countable SurfaceType_value SurfaceType_of_value _.
Next Obligation. by intros []. Qed.

Definition SurfaceParams_fields (p : SurfaceParams) :
    Z * bool * Z * PixelFormat * ComponentType * SurfaceType * Z * Z * Z * Z :=
  (addr p, is_tiled p, block_height p, pixel_format p, component_type p,
   type p, width p, height p, unaligned_height p, size_in_bytes p).

Definition SurfaceParams_of_fields
    (t : Z * bool * Z * PixelFormat * ComponentType * SurfaceType * Z * Z * Z * Z) :
    SurfaceParams :=
  let '(a, tl, bh, pf, ct, ty, w, h, uh, sz) := t in
  {| addr := a; is_tiled := tl; block_height := bh; pixel_format := pf;
     component_type := ct; type := ty; width := w; height := h;
     unaligned_height := uh; size_in_bytes := sz |}.

#[global] Program Instance SurfaceParams_countable : Countable SurfaceParams :=
  inj_countable' SurfaceParams_fields SurfaceParams_of_fields _.
Next Obligation. by intros []. Qed.

#[global] Program Instance SurfaceKey_countable : Countable SurfaceKey :=
  inj_countable' state SurfaceKey_Create _.
Next Obligation. by intros []. Qed.

(** ** The collaborators outside the header

    The guest page size, the translation of a surface's GPU address to the CPU
    address of its bytes ([SurfaceParams::GetCpuAddr], declared in the header,
    defined elsewhere) and the tiled layout are supplied from outside.  The
    tiled layout is an address map: for a surface of the given width, height,
    block height and bytes per pixel it sends an offset in the linear staging
    buffer to the offset of the same byte in the tiled guest image. *)
Class Collaborators : Type := {
  PAGE_BITS : N;
  GetCpuAddr : SurfaceParams → Z;
  tiled_offset : Z → Z → Z → Z → Z → Z
}.

(** Guest memory: a byte at every address. *)
Definition Memory : Type := Z → Byte.byte.

Definition write_byte (mem : Memory) (a : Z) (b : Byte.byte) : Memory :=
  fun x => if x =? a then b else mem x.

Section CachedSurface.
Context `{Collaborators}.

(** Where byte [i] of the staging buffer lives, relative to the surface's
    base address in guest memory. *)
Definition guest_offset (p : SurfaceParams) (bytes_per_pixel i : Z) : Z :=
  if is_tiled p
  then tiled_offset (width p) (height p) (block_height p) bytes_per_pixel i
  else i.

(** Modelled from the spec: [CachedSurface::LoadGLBuffer], whose body is not
    in the header.  A byte-for-byte copy from the guest range that starts at
    [GetCpuAddr] and is [SizeInBytes] long into the staging buffer, de-tiled
    when [is_tiled] is set. *)
Definition LoadGLBuffer (p : SurfaceParams) (mem : Memory) :
    result (list Byte.byte) :=
  size ← SizeInBytes p;
  bytes_per_pixel ← GetGLBytesPerPixel (pixel_format p);
  Ok ((fun i => mem (GetCpuAddr p + guest_offset p bytes_per_pixel i))
        <$> seqZ 0 size).

(** Modelled from the spec: [CachedSurface::FlushGLBuffer], whose body is not
    in the header.  The copy in the other direction, re-tiled when
    [is_tiled] is set: staging byte [i] goes back to the guest address it is
    loaded from. *)
Definition FlushGLBuffer (p : SurfaceParams) (gl_buffer : list Byte.byte)
    (mem : Memory) : result Memory :=
  size ← SizeInBytes p;
  bytes_per_pixel ← GetGLBytesPerPixel (pixel_format p);
  Ok (foldl
        (fun m ib =>
           write_byte m (GetCpuAddr p + guest_offset p bytes_per_pixel ib.1) ib.2)
        mem (zip (seqZ 0 size) gl_buffer)).

End CachedSurface.

(** ** class RasterizerCacheOpenGL *)

(** [Surface] is [std::shared_ptr<CachedSurface>]: the identity of the shared
    object together with the descriptor it was built from, which stays fixed
    for the object's life.  The staging buffer, the part that changes, sits in
    the cache's store under the object's identity. *)
Record Surface : Type := {
  surface_id : nat;
  GetSurfaceParams : SurfaceParams
}.

#[global] Instance Surface_eq_dec : EqDecision Surface.
Proof. solve_decision. Defined.

Record RasterizerCacheOpenGL : Type := {
  surface_cache : gmap SurfaceKey Surface;
  cached_pages : gmap Z Z;               (* PageMap: page number to count *)
  gl_buffers : gmap nat (list Byte.byte); (* staging buffers of the live objects *)
  constructed : nat;                     (* CachedSurface objects built so far *)
  loads : nat                            (* loads from guest memory so far *)
}.

Definition empty_cache : RasterizerCacheOpenGL :=
  {| surface_cache := ∅; cached_pages := ∅; gl_buffers := ∅;
     constructed := 0%nat; loads := 0%nat |}.

Section RasterizerCache.
Context `{Collaborators}.

Definition page_of (a : Z) : Z := Z.shiftr a (Z.of_N PAGE_BITS).

(** The pages of the byte range [addr, addr + size). *)
Definition page_range (a size : Z) : list Z :=
  if 0 <? size
  then seqZ (page_of a) (page_of (a + size - 1) - page_of a + 1)
  else [].

Definition page_count (pages : gmap Z Z) (page : Z) : Z :=
  default 0 (pages !! page).

Definition add_to_page (delta : Z) (pages : gmap Z Z) (page : Z) : gmap Z Z :=
  let count := page_count pages page + delta in
  if count =? 0 then delete page pages else <[page := count]> pages.

(** Modelled from the spec: [UpdatePagesCachedCount], declared in the header
    and defined elsewhere.  It applies [delta] to every page of
    [addr, addr + size) and drops the pages whose count reaches zero. *)
Definition UpdatePagesCachedCount (a size delta : Z) (pages : gmap Z Z) :
    gmap Z Z :=
  foldl (add_to_page delta) pages (page_range a size).

(** Modelled from the spec: [RegisterSurface], declared in the header and
    defined elsewhere.  It inserts the surface into the key table and adds
    its page range to the page map. *)
Definition RegisterSurface (surface : Surface) (c : RasterizerCacheOpenGL) :
    RasterizerCacheOpenGL :=
  let params := GetSurfaceParams surface in
  let surface_key := SurfaceKey_Create params in
  {| surface_cache := <[surface_key := surface]> (surface_cache c);
     cached_pages :=
       UpdatePagesCachedCount (addr params) (size_in_bytes params) 1
         (cached_pages c);
     gl_buffers := gl_buffers c;
     constructed := constructed c;
     loads := loads c |}.

(** Modelled from the spec: [UnregisterSurface], declared in the header and
    defined elsewhere.  It removes the surface from the key table and
    decrements its page range; unregistering a surface that is not
    registered is a programming error, an assertion. *)
Definition UnregisterSurface (surface : Surface) (c : RasterizerCacheOpenGL) :
    result RasterizerCacheOpenGL :=
  let params := GetSurfaceParams surface in
  let surface_key := SurfaceKey_Create params in
  _ ← ASSERT (bool_decide (surface_cache c !! surface_key = Some surface));
  Ok {| surface_cache := delete surface_key (surface_cache c);
        cached_pages :=
          UpdatePagesCachedCount (addr params) (size_in_bytes params) (-1)
            (cached_pages c);
        gl_buffers := gl_buffers c;
        constructed := constructed c;
        loads := loads c |}.

(** Modelled from the spec: [GetSurface], declared in the header and defined
    elsewhere.  It builds the key; on a hit it returns the surface found; on
    a miss it constructs a [CachedSurface], loads it from guest memory,
    registers it and returns it. *)
Definition GetSurface (params : SurfaceParams) (mem : Memory)
    (c : RasterizerCacheOpenGL) : result (Surface * RasterizerCacheOpenGL) :=
  let surface_key := SurfaceKey_Create params in
  match surface_cache c !! surface_key with
  | Some surface => Ok (surface, c)
  | None =>
      let surface :=
        {| surface_id := constructed c; GetSurfaceParams := params |} in
      gl_buffer ← LoadGLBuffer params mem;
      let c' :=
        {| surface_cache := surface_cache c;
           cached_pages := cached_pages c;
           gl_buffers := <[surface_id surface := gl_buffer]> (gl_buffers c);
           constructed := S (constructed c);
           loads := S (loads c) |} in
      Ok (surface, RegisterSurface surface c')
  end.

(** ** Sequences of registrations *)

Inductive call : Type :=
| Register (surface : Surface)
| Unregister (surface : Surface).



Definition do_call (k : call) (c : RasterizerCacheOpenGL) :
    result RasterizerCacheOpenGL :=
  match k with
  | Register surface => Ok (RegisterSurface surface c)
  | Unregister surface => UnregisterSurface surface c
  end.

Fixpoint run (calls : list call) (c : RasterizerCacheOpenGL) :
    result RasterizerCacheOpenGL :=
  match calls with
  | [] => Ok c
  | k :: rest => c' ← do_call k c; run rest c'
  end.







End RasterizerCache.

(** ** The specification's side

    The formulas and predicates the specification words its properties with,
    over the mathematical integers. *)

(** The enumerated formats: the ones strictly below [PixelFormat::Max]. *)
Definition enumerated (format : PixelFormat) : Prop :=
  static_cast_size_t (PixelFormat_value format) < MaxPixelFormat.

(** The block-compressed formats, each with 4x4 blocks. *)
Definition block_compressed (format : PixelFormat) : bool :=
  match format with
  | DXT1 | DXT23 | DXT45 | DXN1 | ASTC_2D_4X4 => true
  | _ => false
  end.

Definition supported_render_target_format
    (format : Tegra.RenderTargetFormat) : bool :=
  match format with
  | Tegra.RenderTargetFormat_other _ => false
  | _ => true
  end.

Definition supported_texture_format
    (format : Tegra.Texture.TextureFormat) : bool :=
  match format with
  | Tegra.Texture.TextureFormat_other _ => false
  | _ => true
  end.

(** [(width / compressionFactor) * (height / compressionFactor) * bitsPerPixel / 8] *)
Definition size_formula (p : SurfaceParams) (compression_factor bpp : Z) : Z :=
  (width p / compression_factor) * (height p / compression_factor) * bpp / 8.

(** The closed intervals [a, a + s] and [b, b + t] have a point in common. *)
Definition closed_intervals_intersect (a s b t : Z) : Prop :=
  ∃ x, a <= x <= a + s ∧ b <= x <= b + t.

(** ** Sample descriptors *)

Definition sample_params (format : PixelFormat) (a w h size : Z) : SurfaceParams :=
  {| addr := a; is_tiled := false; block_height := 1; pixel_format := format;
     component_type := UNorm; type := ColorTexture; width := w; height := h;
     unaligned_height := h; size_in_bytes := size |}.

(** A 64x32 ABGR8 surface at 0x1000. *)
Definition abgr8_64x32 : SurfaceParams := sample_params ABGR8 4096 64 32 8192.

(** An 8192x8192 RGBA16F surface: 512 MiB of pixel data. *)
Definition rgba16f_8192 : SurfaceParams :=
  sample_params RGBA16F 4096 8192 8192 536870912.

(** A 6x8 DXT1 surface: the width is not a multiple of the block edge. *)
Definition dxt1_6x8 : SurfaceParams := sample_params DXT1 4096 6 8 0.

(** A 2x2 tiled ABGR8 surface at 0x2000: 16 bytes. *)
Definition tiled_2x2 : SurfaceParams :=
  {| addr := 8192; is_tiled := true; block_height := 1; pixel_format := ABGR8;
     component_type := UNorm; type := ColorTexture; width := 2; height := 2;
     unaligned_height := 2; size_in_bytes := 16 |}.

(** Sample collaborators: 4 KiB pages, the identity address translation and
    a toy tiled layout that swaps neighbouring bytes. *)
Definition sample_collaborators : Collaborators :=
  {| PAGE_BITS := 12;
     GetCpuAddr := addr;
     tiled_offset := fun _ _ _ _ i => Z.lxor i 1 |}.

Definition sample_memory : Memory :=
  fun a => if Z.even a then Byte.x2a else Byte.x07.

(** Two surface objects and a run that registers both and then unregisters
    the first. *)
Definition surface_0 : Surface :=
  {| surface_id := 0; GetSurfaceParams := abgr8_64x32 |}.

Definition surface_1 : Surface :=
  {| surface_id := 1; GetSurfaceParams := tiled_2x2 |}.


Definition sample_calls : list call :=
  [Register surface_0; Register surface_1; Unregister surface_0].

(** ** The other derivations of the header *)

(** [Tegra::FramebufferConfig::PixelFormat] is declared outside the header: it
    is taken with the enumerator the cache names and one more constructor for
    every other value of the type. *)
Inductive FramebufferConfig_PixelFormat : Type :=
| FramebufferConfig_ABGR8
| FramebufferConfig_PixelFormat_other (raw : Z).

Definition ComponentTypeFromRenderTarget
    (format : Tegra.RenderTargetFormat) : result ComponentType :=
  match format with
  | Tegra.RGBA8_UNORM
  | Tegra.RGBA8_SRGB
  | Tegra.RGB10_A2_UNORM => Ok UNorm
  | Tegra.RGBA16_FLOAT
  | Tegra.R11G11B10_FLOAT => Ok Float
  | Tegra.RenderTargetFormat_other raw => Fault (UnimplementedFormat (u32 raw))
  end.

Definition PixelFormatFromGPUPixelFormat
    (format : FramebufferConfig_PixelFormat) : result PixelFormat :=
  match format with
  | FramebufferConfig_ABGR8 => Ok ABGR8
  | FramebufferConfig_PixelFormat_other raw =>
      Fault (UnimplementedFormat (u32 raw))
  end.

(** The member [GetFormatBpp()], the static lookup at the descriptor's own
    format. *)
Definition SurfaceParams_GetFormatBpp (p : SurfaceParams) : result Z :=
  GetFormatBpp (pixel_format p).

(** The block edge of a format: 4 for the block-compressed ones, 1 for the
    others. *)
Definition block_edge (format : PixelFormat) : Z :=
  if block_compressed format then 4 else 1.

(** The byte ranges [a, a + s) and [b, b + t) have a byte in common. *)
Definition share_byte (a s b t : Z) : Prop :=
  ∃ x, a <= x < a + s ∧ b <= x < b + t.

(** A 65536x65537 R8 surface: 2^32 + 2^16 pixels of one byte. *)
Definition r8_65536x65537 : SurfaceParams :=
  sample_params R8 4096 65536 65537 65536.

(** A 16x8 DXT45 surface: 4x2 blocks of 16 bytes. *)
Definition dxt45_16x8 : SurfaceParams := sample_params DXT45 4096 16 8 128.

(** A surface whose last byte is the last byte of the address space. *)
Definition top_of_memory : SurfaceParams :=
  sample_params ABGR8 (2 ^ 64 - 8192) 64 32 8192.

(** * Properties *)

(** ** Format tables *)

Lemma enumerated_cases (format : PixelFormat) :
  enumerated format ↔ format ≠ Max ∧ format ≠ Invalid.
Proof.
  unfold enumerated, MaxPixelFormat, static_cast_size_t, u64.
  destruct format; simpl; split.
  all: try (intros _; split; discriminate).
  all: try (intros _; reflexivity).
  all: try (intros Hlt; vm_compute in Hlt; discriminate).
  all: intros [H1 H2]; congruence.
Qed.

(** C10. Queried with [PixelFormat::Invalid], the format queries return 0
    without a fault: the compression factor, the bits per pixel and the GL
    bytes per pixel are all 0. *)
Theorem invalid_format_queries_return_zero :
  GetCompressionFactor Invalid = Ok 0
  ∧ GetFormatBpp Invalid = Ok 0
  ∧ GetGLBytesPerPixel Invalid = Ok 0.
Proof. repeat split. Qed.

(** C7. Both tables give a value for every format strictly below
    [PixelFormat::Max]; the value is the table entry at the format's index;
    the compression factor is 4 for the block-compressed formats and 1 for
    the others. *)
Theorem format_tables_total (format : PixelFormat) :
  enumerated format →
  GetFormatBpp format = Ok (array_at bpp_table (PixelFormat_value format))
  ∧ GetCompressionFactor format
    = Ok (array_at compression_factor_table (PixelFormat_value format))
  ∧ GetCompressionFactor format = Ok (if block_compressed format then 4 else 1).
Proof.
  intros Hen. apply enumerated_cases in Hen as [HM HI].
  destruct format; try congruence; repeat split.
Qed.

Lemma format_tables_total_witness :
  GetFormatBpp DXT23 = Ok 128
  ∧ GetCompressionFactor DXT23 = Ok 4
  ∧ GetCompressionFactor DXT23 = Ok 4.
Proof. apply (format_tables_total DXT23). reflexivity. Defined.

(** C9. A format strictly below [PixelFormat::Max] is classified as
    [ColorTexture]; a format at or above [Max] fails the assertion; so no
    format is ever classified as depth, depth-stencil or fill. *)
Theorem GetFormatType_only_color (format : PixelFormat) :
  (enumerated format → GetFormatType format = Ok ColorTexture)
  ∧ (¬ enumerated format → GetFormatType format = Fault AssertionFailed)
  ∧ (∀ t, GetFormatType format = Ok t → t = ColorTexture).
Proof.
  unfold GetFormatType, enumerated.
  destruct (Z.ltb_spec (static_cast_size_t (PixelFormat_value format))
              MaxPixelFormat) as [Hlt | Hge].
  - split; [done |]. split; [intros Hn; contradiction | congruence].
  - split; [lia |]. split; [done | discriminate].
Qed.

Lemma GetFormatType_only_color_witness :
  GetFormatType R8 = Ok ColorTexture
  ∧ GetFormatType Max = Fault AssertionFailed
  ∧ GetFormatType Invalid = Fault AssertionFailed.
Proof.
  split; [| split].
  - apply (GetFormatType_only_color R8). reflexivity.
  - apply (GetFormatType_only_color Max). intros Hlt. discriminate Hlt.
  - apply (GetFormatType_only_color Invalid). intros Hlt. discriminate Hlt.
Defined.

(** ** Format conversions *)

(** C6. Both derivations from a guest format return an enumerated host format
    for every supported guest format, and for every other guest format stop
    with the unimplemented-format fault, which carries the logged value; they
    never return a fallback value. *)
Theorem guest_format_mapped_or_fatal
    (tf : Tegra.Texture.TextureFormat) (rf : Tegra.RenderTargetFormat) :
  (supported_texture_format tf = true →
     ∃ p, PixelFormatFromTextureFormat tf = Ok p ∧ enumerated p)
  ∧ (supported_texture_format tf = false →
     ∃ logged, PixelFormatFromTextureFormat tf = Fault (UnimplementedFormat logged))
  ∧ (supported_render_target_format rf = true →
     ∃ p, PixelFormatFromRenderTargetFormat rf = Ok p ∧ enumerated p)
  ∧ (supported_render_target_format rf = false →
     ∃ logged,
       PixelFormatFromRenderTargetFormat rf = Fault (UnimplementedFormat logged)).
Proof.
  repeat split.
  - destruct tf; simpl; try discriminate; intros _;
      eexists; (split; [reflexivity | reflexivity]).
  - destruct tf; simpl; try discriminate; intros _; eexists; reflexivity.
  - destruct rf; simpl; try discriminate; intros _;
      eexists; (split; [reflexivity | reflexivity]).
  - destruct rf; simpl; try discriminate; intros _; eexists; reflexivity.
Qed.

Lemma guest_format_mapped_or_fatal_witness :
  (∃ p, PixelFormatFromTextureFormat Tegra.Texture.BF10GF11RF11 = Ok p
        ∧ enumerated p)
  ∧ (∃ logged,
       PixelFormatFromRenderTargetFormat (Tegra.RenderTargetFormat_other 192)
       = Fault (UnimplementedFormat logged)).
Proof.
  split.
  - apply (guest_format_mapped_or_fatal Tegra.Texture.BF10GF11RF11
             (Tegra.RenderTargetFormat_other 192)).
    reflexivity.
  - apply (guest_format_mapped_or_fatal Tegra.Texture.BF10GF11RF11
             (Tegra.RenderTargetFormat_other 192)).
    reflexivity.
Defined.

(** C8. On their supported domains the two texture-format tables are inverse
    to each other: converting a supported guest texture format to a pixel
    format and back gives the format again, and so does converting an
    enumerated pixel format to a texture format and back. *)
Theorem texture_pixel_format_inverse :
  (∀ f, supported_texture_format f = true →
     (p ← PixelFormatFromTextureFormat f; TextureFormatFromPixelFormat p) = Ok f)
  ∧ (∀ p, enumerated p →
     (f ← TextureFormatFromPixelFormat p; PixelFormatFromTextureFormat f) = Ok p).
Proof.
  split.
  - intros f Hs. destruct f; try reflexivity. discriminate Hs.
  - intros p Hen. apply enumerated_cases in Hen as [HM HI].
    destruct p; try reflexivity; congruence.
Qed.

Lemma texture_pixel_format_inverse_witness :
  (p ← PixelFormatFromTextureFormat Tegra.Texture.R16_G16_B16_A16;
   TextureFormatFromPixelFormat p) = Ok Tegra.Texture.R16_G16_B16_A16
  ∧ (f ← TextureFormatFromPixelFormat R11FG11FB10F;
     PixelFormatFromTextureFormat f) = Ok R11FG11FB10F.
Proof.
  destruct texture_pixel_format_inverse as [Hto Hfrom]. split.
  - apply Hto. reflexivity.
  - apply Hfrom. reflexivity.
Defined.

(** ** SizeInBytes *)

Lemma u32_small (z : Z) : 0 <= z < 2 ^ 32 → u32 z = z.
Proof. intros Hz. unfold u32. by apply Z.mod_small. Qed.

Lemma u64_small (z : Z) : 0 <= z < 2 ^ 64 → u64 z = z.
Proof. intros Hz. unfold u64. by apply Z.mod_small. Qed.

Lemma in_u32_range (z : Z) : in_u32 z = true → 0 <= z < 2 ^ 32.
Proof. unfold in_u32. intros [H1 H2]%andb_prop. lia. Qed.

Lemma in_u64_range (z : Z) : in_u64 z = true → 0 <= z < 2 ^ 64.
Proof. unfold in_u64. intros [H1 H2]%andb_prop. lia. Qed.

Lemma representable_ranges (p : SurfaceParams) :
  representable p = true →
  0 <= addr p < 2 ^ 64 ∧ 0 <= width p < 2 ^ 32 ∧ 0 <= height p < 2 ^ 32
  ∧ 0 <= size_in_bytes p < 2 ^ 64.
Proof.
  unfold representable. rewrite !andb_true_iff.
  intros (((((Ha & _) & Hw) & Hh) & _) & Hs).
  auto using in_u32_range, in_u64_range.
Qed.

(** The tables of an enumerated format: a block edge of 1 or 4 and a positive
    number of bits. *)
Lemma enumerated_tables (format : PixelFormat) (cf bpp : Z) :
  enumerated format →
  GetCompressionFactor format = Ok cf →
  GetFormatBpp format = Ok bpp →
  (cf = 1 ∨ cf = 4) ∧ 8 <= bpp <= 128.
Proof.
  intros [HM HI]%enumerated_cases Hcf Hbpp.
  destruct format; try congruence; vm_compute in Hcf, Hbpp;
    injection Hcf as <-; injection Hbpp as <-; lia.
Qed.

(** What [SizeInBytes] computes once the two table lookups have returned and
    the block edge is not zero: the two assertions, then the product in
    32-bit arithmetic. *)
Lemma SizeInBytes_steps (p : SurfaceParams) (cf bpp : Z) :
  GetCompressionFactor (pixel_format p) = Ok cf →
  GetFormatBpp (pixel_format p) = Ok bpp →
  cf ≠ 0 →
  SizeInBytes p =
    if negb (width p mod cf =? 0) then Fault AssertionFailed
    else if negb (height p mod cf =? 0) then Fault AssertionFailed
    else Ok (u32_mul (u32_mul (width p / cf) (height p / cf)) bpp / CHAR_BIT).
Proof.
  intros Hcf Hbpp Hnz. unfold SizeInBytes. rewrite Hcf, Hbpp. simpl.
  unfold u32_rem, u32_div.
  destruct (Z.eqb_spec cf 0) as [|_]; [done |]. simpl.
  destruct (width p mod cf =? 0); simpl; [| done].
  destruct (height p mod cf =? 0); simpl; done.
Qed.

(** Where the 32-bit product does not wrap the code does what its comment
    says.  For a descriptor with an enumerated format: when the width and the
    height are divisible by the format's compression factor and the product
    [(width / cf) * (height / cf) * bpp] is below 2^32, [SizeInBytes] returns
    that product divided by 8; when the width or the height is not divisible,
    it stops at the assertion. *)
Theorem SizeInBytes_within_u32 (p : SurfaceParams) (cf bpp : Z) :
  representable p = true →
  enumerated (pixel_format p) →
  GetCompressionFactor (pixel_format p) = Ok cf →
  GetFormatBpp (pixel_format p) = Ok bpp →
  ((cf | width p) → (cf | height p) →
   (width p / cf) * (height p / cf) * bpp < 2 ^ 32 →
   SizeInBytes p = Ok (size_formula p cf bpp))
  ∧ (¬ ((cf | width p) ∧ (cf | height p)) →
     SizeInBytes p = Fault AssertionFailed).
Proof.
  intros Hrep Hen Hcf Hbpp.
  destruct (enumerated_tables _ _ _ Hen Hcf Hbpp) as [Hcf14 Hb].
  assert (Hnz : cf ≠ 0) by lia.
  assert (Hpos : 0 < cf) by lia.
  rewrite (SizeInBytes_steps p cf bpp Hcf Hbpp Hnz).
  destruct (representable_ranges p Hrep) as (_ & Hw & Hh & _).
  assert (Hwq : 0 <= width p / cf) by (apply Z.div_pos; lia).
  assert (Hhq : 0 <= height p / cf) by (apply Z.div_pos; lia).
  split.
  - intros Hdw Hdh Hfit.
    apply Z.mod_divide in Hdw; [| done]. apply Z.mod_divide in Hdh; [| done].
    rewrite Hdw, Hdh. simpl. f_equal.
    unfold size_formula, u32_mul, CHAR_BIT.
    assert (Hprod : 0 <= width p / cf * (height p / cf)) by lia.
    rewrite (u32_small (width p / cf * (height p / cf))) by nia.
    rewrite u32_small by nia. done.
  - intros Hnd.
    destruct (Z.eqb_spec (width p mod cf) 0) as [Hwm | Hwm]; simpl; [| done].
    destruct (Z.eqb_spec (height p mod cf) 0) as [Hhm | Hhm]; simpl; [| done].
    exfalso. apply Hnd. split; by apply Z.mod_divide.
Qed.

Lemma SizeInBytes_within_u32_witness :
  SizeInBytes abgr8_64x32 = Ok 8192
  ∧ SizeInBytes dxt1_6x8 = Fault AssertionFailed.
Proof.
  split.
  - apply (SizeInBytes_within_u32 abgr8_64x32 1 32); try reflexivity.
    + exists 64. reflexivity.
    + exists 32. reflexivity.
  - apply (SizeInBytes_within_u32 dxt1_6x8 4 64); try reflexivity.
    intros [[k Hk] _]. simpl in Hk. lia.
Defined.

(** C1.  The code departs from the formula at an 8192x8192 RGBA16F
    descriptor, a surface of 512 MiB.  The descriptor is representable, its
    format is enumerated, both dimensions are divisible by the compression
    factor 1, and the formula gives 536870912 bytes; [SizeInBytes] returns 0,
    because the product 8192 * 8192 * 64 = 2^32 is formed on 32-bit operands
    and wraps before the result is widened to [size_t]. *)
Theorem SizeInBytes_wraps_to_zero :
  representable rgba16f_8192 = true
  ∧ enumerated (pixel_format rgba16f_8192)
  ∧ GetCompressionFactor (pixel_format rgba16f_8192) = Ok 1
  ∧ GetFormatBpp (pixel_format rgba16f_8192) = Ok 64
  ∧ (1 | width rgba16f_8192) ∧ (1 | height rgba16f_8192)
  ∧ size_formula rgba16f_8192 1 64 = 536870912
  ∧ SizeInBytes rgba16f_8192 = Ok 0
  ∧ SizeInBytes rgba16f_8192 ≠ Ok (size_formula rgba16f_8192 1 64).
Proof.
  repeat split; try (by exists 8192). discriminate.
Qed.

(** ** IsOverlappingRegion *)

(** C2, as the code has it.  When neither end point [addr + size] exceeds the
    64-bit range, [IsOverlappingRegion] holds exactly when the closed
    intervals [region_addr, region_addr + region_size] and
    [addr, addr + size_in_bytes] intersect, touching boundaries included. *)
Theorem IsOverlappingRegion_closed_intervals
    (p : SurfaceParams) (region_addr region_size : Z) :
  representable p = true →
  in_u64 region_addr = true →
  in_u64 region_size = true →
  region_addr + region_size < 2 ^ 64 →
  addr p + size_in_bytes p < 2 ^ 64 →
  IsOverlappingRegion p region_addr region_size = true
  ↔ closed_intervals_intersect region_addr region_size
      (addr p) (size_in_bytes p).
Proof.
  intros Hrep Hra Hrs Hr Hs.
  destruct (representable_ranges p Hrep) as (Ha & _ & _ & Hsz).
  apply in_u64_range in Hra, Hrs.
  unfold IsOverlappingRegion, closed_intervals_intersect.
  rewrite !u64_small by lia.
  rewrite andb_true_iff, !Z.leb_le. split.
  - intros [H1 H2]. exists (Z.max region_addr (addr p)). lia.
  - intros (x & Hx1 & Hx2). lia.
Qed.

Lemma IsOverlappingRegion_closed_intervals_witness :
  IsOverlappingRegion abgr8_64x32 12288 16 = true
  ↔ closed_intervals_intersect 12288 16 4096 8192.
Proof.
  apply (IsOverlappingRegion_closed_intervals abgr8_64x32 12288 16);
    reflexivity.
Defined.

(** C2, as the specification words it, fails when an end point wraps.  The query
    [0x800, 0x800 + (2^64 - 1)] contains the whole surface at
    [0x1000, 0x3000], yet [region_addr + region_size] wraps to 0x7ff and the
    test answers false. *)
Lemma IsOverlappingRegion_wrap_counterexample :
  representable abgr8_64x32 = true
  ∧ in_u64 2048 = true
  ∧ in_u64 (2 ^ 64 - 1) = true
  ∧ closed_intervals_intersect 2048 (2 ^ 64 - 1)
      (addr abgr8_64x32) (size_in_bytes abgr8_64x32)
  ∧ IsOverlappingRegion abgr8_64x32 2048 (2 ^ 64 - 1) = false.
Proof.
  repeat split. exists 4096. simpl. lia.
Qed.

(** ** Loading and flushing the staging buffer *)

Lemma SizeInBytes_Ok_enumerated (p : SurfaceParams) (size : Z) :
  SizeInBytes p = Ok size → enumerated (pixel_format p).
Proof.
  intros Hsize. apply enumerated_cases. unfold SizeInBytes in Hsize.
  split; intros Hf; rewrite Hf in Hsize; simpl in Hsize; discriminate.
Qed.

Lemma GetGLBytesPerPixel_enumerated (format : PixelFormat) :
  enumerated format → ∃ n, GetGLBytesPerPixel format = Ok n.
Proof.
  intros [HM HI]%enumerated_cases.
  destruct format; try congruence; eexists; reflexivity.
Qed.

(** Writing back, one byte at a time, what was read from the same addresses
    leaves a memory as it was. *)
Lemma write_back_unchanged (place : Z → Z) (mem0 : Memory) (indices : list Z) :
  ∀ mem : Memory,
    (∀ a, mem a = mem0 a) →
    ∀ a,
      foldl (fun m ib => write_byte m (place ib.1) ib.2) mem
        (zip indices ((fun i => mem0 (place i)) <$> indices)) a
      = mem0 a.
Proof.
  induction indices as [| i rest IH]; intros mem Hmem a; simpl.
  - apply Hmem.
  - apply IH. intros x. unfold write_byte.
    destruct (Z.eqb_spec x (place i)) as [-> | _]; [done | apply Hmem].
Qed.

Lemma LoadGLBuffer_returns `{Collaborators}
    (p : SurfaceParams) (mem : Memory) (size : Z) :
  SizeInBytes p = Ok size →
  ∃ n,
    GetGLBytesPerPixel (pixel_format p) = Ok n
    ∧ LoadGLBuffer p mem
      = Ok ((fun i => mem (GetCpuAddr p + guest_offset p n i)) <$> seqZ 0 size).
Proof.
  intros Hsize.
  destruct (GetGLBytesPerPixel_enumerated (pixel_format p)) as [n Hn].
  { by eapply SizeInBytes_Ok_enumerated. }
  exists n. split; [done |].
  unfold LoadGLBuffer. by rewrite Hsize, Hn.
Qed.

(** A linear surface is loaded byte by byte from its guest range, and a flush
    does write the staging buffer out. *)
Lemma LoadGLBuffer_linear `{Collaborators}
    (p : SurfaceParams) (mem : Memory) (size : Z) (gl_buffer : list Byte.byte)
    (i : nat) :
  is_tiled p = false →
  SizeInBytes p = Ok size →
  LoadGLBuffer p mem = Ok gl_buffer →
  Z.of_nat i < size →
  gl_buffer !! i = Some (mem (GetCpuAddr p + Z.of_nat i)).
Proof.
  intros Hlin Hsize Hload Hi.
  destruct (LoadGLBuffer_returns p mem size Hsize) as (n & _ & Hload').
  rewrite Hload' in Hload. injection Hload as <-.
  rewrite list_lookup_fmap, lookup_seqZ_lt by done. simpl.
  unfold guest_offset. by rewrite Hlin.
Qed.

Example FlushGLBuffer_writes :
  (mem' ← @FlushGLBuffer sample_collaborators tiled_2x2
            (replicate 16 Byte.xff) sample_memory;
   Ok (mem' 8191, mem' 8192, mem' 8207, mem' 8208))
  = Ok (Byte.x07, Byte.xff, Byte.xff, Byte.x2a).
Proof. reflexivity. Qed.

(** C5. For every surface whose size is defined, tiled or linear, and every
    content of guest memory, the load succeeds and fills the staging buffer
    with [SizeInBytes] bytes, the flush that follows succeeds, and afterwards
    every guest byte, those of the surface's range among them, has its
    original value. *)
Theorem load_then_flush_restores `{Collaborators}
    (p : SurfaceParams) (mem : Memory) (size : Z) :
  SizeInBytes p = Ok size →
  ∃ gl_buffer mem',
    LoadGLBuffer p mem = Ok gl_buffer
    ∧ length gl_buffer = Z.to_nat size
    ∧ FlushGLBuffer p gl_buffer mem = Ok mem'
    ∧ ∀ a, mem' a = mem a.
Proof.
  intros Hsize.
  destruct (LoadGLBuffer_returns p mem size Hsize) as (n & Hn & Hload).
  rewrite Hload. unfold FlushGLBuffer. rewrite Hsize, Hn. simpl.
  eexists. eexists. split; [reflexivity |].
  split; [by rewrite length_fmap, length_seqZ |].
  split; [reflexivity |].
  intros a.
  apply (write_back_unchanged
           (fun i => GetCpuAddr p + guest_offset p n i) mem (seqZ 0 size) mem).
  done.
Qed.

Lemma load_then_flush_restores_witness :
  ∃ gl_buffer mem',
    @LoadGLBuffer sample_collaborators tiled_2x2 sample_memory = Ok gl_buffer
    ∧ length gl_buffer = 16%nat
    ∧ @FlushGLBuffer sample_collaborators tiled_2x2 gl_buffer sample_memory
      = Ok mem'
    ∧ ∀ a, mem' a = sample_memory a.
Proof.
  apply (@load_then_flush_restores sample_collaborators tiled_2x2
           sample_memory 16).
  reflexivity.
Defined.

(** ** GetSurface *)

Lemma SurfaceParams_fields_inj (p q : SurfaceParams) :
  SurfaceParams_fields p = SurfaceParams_fields q → p = q.
Proof.
  destruct p, q. unfold SurfaceParams_fields. simpl. intros Heq.
  by simplify_eq.
Qed.

(** C4. Two consecutive calls of [GetSurface] with field-wise identical
    descriptors and nothing in between: whenever the first call returns a
    surface, the second returns the same instance and leaves the cache as the
    first call left it, so that it neither constructs a surface nor loads from
    guest memory (both counters are part of the cache state).  The first call
    does return whenever the descriptor's size is defined. *)
Theorem GetSurface_twice_same_instance `{Collaborators}
    (p p' : SurfaceParams) (mem mem' : Memory) (c : RasterizerCacheOpenGL) :
  SurfaceParams_fields p' = SurfaceParams_fields p →
  (∀ s c1,
     GetSurface p mem c = Ok (s, c1) →
     ∃ s2 c2,
       GetSurface p' mem' c1 = Ok (s2, c2)
       ∧ s2 = s
       ∧ constructed c2 = constructed c1
       ∧ loads c2 = loads c1
       ∧ c2 = c1)
  ∧ (∀ size, SizeInBytes p = Ok size → ∃ s c1, GetSurface p mem c = Ok (s, c1)).
Proof.
  intros ->%SurfaceParams_fields_inj. split.
  - intros s c1 Hget. exists s, c1. split; [| done]. unfold GetSurface in *.
    destruct (surface_cache c !! SurfaceKey_Create p) as [s0 |] eqn:Hlook.
    + injection Hget as <- <-. by rewrite Hlook.
    + destruct (LoadGLBuffer p mem) as [buf | f]; simpl in Hget;
        [| discriminate].
      injection Hget as <- <-. simpl. by rewrite lookup_insert_eq.
  - intros size Hsize. unfold GetSurface.
    destruct (surface_cache c !! SurfaceKey_Create p) as [s0 |];
      [by eexists; eexists |].
    destruct (LoadGLBuffer_returns p mem size Hsize) as (n & _ & ->).
    simpl. by eexists; eexists.
Qed.

Lemma GetSurface_twice_same_instance_witness :
  ∃ s c1,
    @GetSurface sample_collaborators tiled_2x2 sample_memory empty_cache
    = Ok (s, c1)
    ∧ ∃ s2 c2,
        @GetSurface sample_collaborators tiled_2x2 sample_memory c1
        = Ok (s2, c2)
        ∧ s2 = s
        ∧ constructed c2 = constructed c1
        ∧ loads c2 = loads c1
        ∧ c2 = c1.
Proof.
  destruct (@GetSurface_twice_same_instance sample_collaborators
              tiled_2x2 tiled_2x2 sample_memory sample_memory empty_cache
              eq_refl) as [Hsecond Hfirst].
  destruct (Hfirst 16 eq_refl) as (s & c1 & Hget).
  exists s, c1. split; [exact Hget |]. by apply Hsecond.
Defined.

(** ** The page map under registrations *)

Section PageCoherence.
Context `{Collaborators}.
















End PageCoherence.


(** With 4 KiB pages, the 64x32 surface at 0x1000 covers pages 1 and 2 and the
    2x2 surface at 0x2000 covers page 2.  After both are registered the counts
    are 1 and 2; after the first is unregistered page 1 is gone from the map
    and page 2 counts 1. *)
Example sample_calls_counts :
  (c ← @run sample_collaborators (take 2 sample_calls) empty_cache;
   Ok (cached_pages c !! 0, cached_pages c !! 1, cached_pages c !! 2,
       cached_pages c !! 3))
  = Ok (None, Some 1, Some 2, None)
  ∧ (c ← @run sample_collaborators sample_calls empty_cache;
     Ok (cached_pages c !! 0, cached_pages c !! 1, cached_pages c !! 2,
         cached_pages c !! 3))
    = Ok (None, None, Some 1, None).
Proof. split; vm_compute; reflexivity. Qed.



(** * Further properties of the header's functions *)

(** ** The lookups and the outcomes of SizeInBytes *)

Lemma GetCompressionFactor_enumerated (format : PixelFormat) :
  enumerated format → GetCompressionFactor format = Ok (block_edge format).
Proof.
  intros [HM HI]%enumerated_cases. destruct format; try congruence; reflexivity.
Qed.

Lemma bpp_whole_bytes (format : PixelFormat) (bpp : Z) :
  enumerated format →
  GetFormatBpp format = Ok bpp →
  ∃ k, bpp = 8 * k ∧ 1 <= k <= 16.
Proof.
  intros [HM HI]%enumerated_cases Hbpp.
  destruct format; try congruence; vm_compute in Hbpp; injection Hbpp as <-.
  all: first [ by exists 1 | by exists 2 | by exists 4 | by exists 8
             | by exists 16 ].
Qed.

Lemma GetFormatBpp_enumerated (format : PixelFormat) :
  enumerated format → ∃ bpp, GetFormatBpp format = Ok bpp.
Proof.
  intros [HM HI]%enumerated_cases.
  destruct format; try congruence; eexists; reflexivity.
Qed.

Lemma block_edge_pos (format : PixelFormat) : 0 < block_edge format.
Proof. unfold block_edge. destruct (block_compressed format); lia. Qed.

Lemma SizeInBytes_Max (p : SurfaceParams) :
  pixel_format p = Max → SizeInBytes p = Fault AssertionFailed.
Proof. intros Hf. unfold SizeInBytes. by rewrite Hf. Qed.

Lemma SizeInBytes_Invalid (p : SurfaceParams) :
  pixel_format p = Invalid → SizeInBytes p = Fault DivisionByZero.
Proof. intros Hf. unfold SizeInBytes. by rewrite Hf. Qed.

(** The three steps of the product in 32-bit arithmetic amount to one
    reduction modulo 2^32, and the division by 8 loses nothing. *)
Lemma u32_product_bytes (a b k : Z) :
  8 * (u32_mul (u32_mul a b) (8 * k) / CHAR_BIT) = (a * b * (8 * k)) mod 2 ^ 32.
Proof.
  unfold u32_mul, u32, CHAR_BIT.
  rewrite Z.mul_mod_idemp_l by lia.
  replace (a * b * (8 * k)) with (8 * (a * b * k)) by lia.
  change (2 ^ 32) with (8 * 2 ^ 29).
  rewrite Z.mul_mod_distr_l by lia.
  rewrite (Z.mul_comm 8 ((a * b * k) mod 2 ^ 29)), Z.div_mul by lia. lia.
Qed.

(** What [SizeInBytes] returns for an enumerated format, by the divisibility
    of the two dimensions. *)
Lemma SizeInBytes_enumerated (p : SurfaceParams) :
  enumerated (pixel_format p) →
  ∃ bpp k,
    GetFormatBpp (pixel_format p) = Ok bpp ∧ bpp = 8 * k ∧ 1 <= k <= 16
    ∧ (((block_edge (pixel_format p) | width p)
        ∧ (block_edge (pixel_format p) | height p)
        ∧ SizeInBytes p
          = Ok (u32_mul
                  (u32_mul (width p / block_edge (pixel_format p))
                     (height p / block_edge (pixel_format p))) bpp
                / CHAR_BIT))
       ∨ (¬ ((block_edge (pixel_format p) | width p)
             ∧ (block_edge (pixel_format p) | height p))
          ∧ SizeInBytes p = Fault AssertionFailed)).
Proof.
  intros Hen.
  destruct (GetFormatBpp_enumerated _ Hen) as [bpp Hbpp].
  destruct (bpp_whole_bytes _ _ Hen Hbpp) as (k & Hk & Hk16).
  pose proof (block_edge_pos (pixel_format p)) as Hpos.
  exists bpp, k. split; [done |]. split; [done |]. split; [done |].
  rewrite (SizeInBytes_steps p (block_edge (pixel_format p)) bpp
             (GetCompressionFactor_enumerated _ Hen) Hbpp) by lia.
  destruct (Z.eqb_spec (width p mod block_edge (pixel_format p)) 0)
    as [Hw | Hw]; simpl.
  - destruct (Z.eqb_spec (height p mod block_edge (pixel_format p)) 0)
      as [Hh | Hh]; simpl.
    + left. split; [| split; [| done]]; apply Z.mod_divide; lia || done.
    + right. split; [| done]. intros [_ Hd]. apply Hh, Z.mod_divide; lia || done.
  - right. split; [| done]. intros [Hd _]. apply Hw, Z.mod_divide; lia || done.
Qed.

(** X1. For an enumerated format and dimensions divisible by the block edge,
    [SizeInBytes] returns a value whose eightfold is exactly the bit count
    [(width / edge) * (height / edge) * bpp] reduced modulo 2^32: the 32-bit
    product wraps, and the division by 8 never rounds. *)
Theorem SizeInBytes_modular (p : SurfaceParams) (bpp : Z) :
  enumerated (pixel_format p) →
  GetFormatBpp (pixel_format p) = Ok bpp →
  (block_edge (pixel_format p) | width p) →
  (block_edge (pixel_format p) | height p) →
  ∃ s,
    SizeInBytes p = Ok s
    ∧ 8 * s
      = (width p / block_edge (pixel_format p)
         * (height p / block_edge (pixel_format p)) * bpp) mod 2 ^ 32.
Proof.
  intros Hen Hbpp Hw Hh.
  destruct (SizeInBytes_enumerated p Hen)
    as (bpp' & k & Hbpp' & Hk & _ & [(_ & _ & Hsize) | [Hnd _]]).
  - rewrite Hbpp in Hbpp'. injection Hbpp' as <-.
    eexists. split; [exact Hsize |]. subst bpp. apply u32_product_bytes.
  - exfalso. by apply Hnd.
Qed.

Lemma SizeInBytes_modular_witness :
  ∃ s,
    SizeInBytes r8_65536x65537 = Ok s
    ∧ 8 * s = (65536 * 65537 * 8) mod 2 ^ 32.
Proof.
  apply (SizeInBytes_modular r8_65536x65537 8).
  - reflexivity.
  - reflexivity.
  - exists 65536. reflexivity.
  - exists 65537. reflexivity.
Defined.

(** X2. Whatever the descriptor, a size that [SizeInBytes] returns lies in
    [0, 2^29): the function never reports 512 MiB or more. *)
Theorem SizeInBytes_below_512MiB (p : SurfaceParams) (s : Z) :
  SizeInBytes p = Ok s → 0 <= s < 2 ^ 29.
Proof.
  intros Hs.
  destruct (SizeInBytes_enumerated p (SizeInBytes_Ok_enumerated p s Hs))
    as (bpp & k & _ & _ & _ & [(_ & _ & Hsize) | [_ Hf]]); [| congruence].
  rewrite Hsize in Hs. injection Hs as <-.
  assert (Hbound : ∀ x, 0 <= u32 x / CHAR_BIT < 2 ^ 29).
  { intros x. unfold u32, CHAR_BIT.
    pose proof (Z.mod_pos_bound x (2 ^ 32) ltac:(lia)) as Hx.
    split; [apply Z.div_pos; lia |].
    apply Z.div_lt_upper_bound; lia. }
  apply Hbound.
Qed.

Lemma SizeInBytes_below_512MiB_witness :
  0 <= 65536 < 2 ^ 29.
Proof. apply (SizeInBytes_below_512MiB r8_65536x65537 65536). reflexivity. Defined.

(** X3. The outcomes of [SizeInBytes], for every descriptor: it divides by
    zero exactly when the format is [Invalid]; it returns a size exactly when
    the format is enumerated and both dimensions are divisible by the block
    edge; it stops at an assertion exactly when the format is [Max] or an
    enumerated format meets an indivisible dimension. *)
Theorem SizeInBytes_outcomes (p : SurfaceParams) :
  (SizeInBytes p = Fault DivisionByZero ↔ pixel_format p = Invalid)
  ∧ ((∃ s, SizeInBytes p = Ok s)
     ↔ enumerated (pixel_format p)
       ∧ (block_edge (pixel_format p) | width p)
       ∧ (block_edge (pixel_format p) | height p))
  ∧ (SizeInBytes p = Fault AssertionFailed
     ↔ pixel_format p = Max
       ∨ (enumerated (pixel_format p)
          ∧ ¬ ((block_edge (pixel_format p) | width p)
               ∧ (block_edge (pixel_format p) | height p)))).
Proof.
  destruct (decide (pixel_format p = Invalid)) as [HI | HI].
  { pose proof (SizeInBytes_Invalid p HI) as Hs.
    assert (Hne : ¬ enumerated (pixel_format p))
      by (rewrite enumerated_cases; tauto).
    rewrite Hs. split; [done |]. split.
    - split; [intros [s Hs']; discriminate | tauto].
    - split; [discriminate |]. intros [HM | [Hen _]]; [congruence | done]. }
  destruct (decide (pixel_format p = Max)) as [HM | HM].
  { pose proof (SizeInBytes_Max p HM) as Hs.
    assert (Hne : ¬ enumerated (pixel_format p))
      by (rewrite enumerated_cases; tauto).
    rewrite Hs. split; [split; [discriminate | done] |]. split.
    - split; [intros [s Hs']; discriminate | tauto].
    - split; [by left | done]. }
  assert (Hen : enumerated (pixel_format p)) by by apply enumerated_cases.
  destruct (SizeInBytes_enumerated p Hen)
    as (bpp & k & _ & _ & _ & [(Hw & Hh & Hs) | [Hnd Hs]]); rewrite Hs.
  - split; [split; [discriminate | done] |]. split.
    + split; [done | by eexists].
    + split; [discriminate |]. intros [? | [_ Hnd]]; [done |].
      exfalso. by apply Hnd.
  - split; [split; [discriminate | done] |]. split.
    + split; [intros [s Hs']; discriminate | tauto].
    + split; [by right | done].
Qed.

(** X9. The bytes per pixel are the bits per pixel divided by 8 with
    nothing lost: whenever the bit lookup returns, the byte lookup returns an
    eighth of it exactly, zero for [Invalid]; when the bit lookup stops (only
    for [Max], at its bounds assertion), the byte lookup stops the same way. *)
Theorem GetGLBytesPerPixel_exact (format : PixelFormat) :
  match GetFormatBpp format, GetGLBytesPerPixel format with
  | Ok bpp, Ok n => 8 * n = bpp
  | Fault f1, Fault f2 => f1 = f2 ∧ format = Max
  | _, _ => False
  end.
Proof. destruct format; vm_compute; done. Qed.

(** X10. In both tables zero marks [Invalid] and nothing else, and the
    bounds assertion fails for [Max] and nothing else. *)
Theorem table_lookups_zero_and_fault (format : PixelFormat) :
  (GetCompressionFactor format = Ok 0 ↔ format = Invalid)
  ∧ (GetFormatBpp format = Ok 0 ↔ format = Invalid)
  ∧ (GetCompressionFactor format = Fault AssertionFailed ↔ format = Max)
  ∧ (GetFormatBpp format = Fault AssertionFailed ↔ format = Max)
  ∧ (∀ f, GetCompressionFactor format = Fault f ∨ GetFormatBpp format = Fault f →
          f = AssertionFailed).
Proof.
  destruct format; repeat split.
  all: try (intros _; reflexivity).
  all: try (intros Heq; vm_compute in Heq; congruence).
  all: intros f [Heq | Heq]; vm_compute in Heq; congruence.
Qed.

Lemma GetGLBytesPerPixel_of_bpp (format : PixelFormat) (k : Z) :
  enumerated format →
  GetFormatBpp format = Ok (8 * k) →
  GetGLBytesPerPixel format = Ok k.
Proof.
  intros [HM HI]%enumerated_cases Hbpp.
  unfold GetGLBytesPerPixel.
  rewrite bool_decide_eq_false_2, Hbpp by done. simpl.
  unfold u32_div, CHAR_BIT. simpl. f_equal.
  rewrite (Z.mul_comm 8 k). apply Z.div_mul. lia.
Qed.

(** X4. Without overflow the size is pixels times bytes per pixel, scaled by
    the block area: for a representable descriptor with an enumerated format,
    dimensions divisible by the block edge and a bit count below 2^32,
    [SizeInBytes] times [edge * edge] equals
    [width * height * GetGLBytesPerPixel].  For the formats with edge 1 this is
    the plain product; for the 4x4 block formats it is a sixteenth of it. *)
Theorem SizeInBytes_pixels_times_bytes (p : SurfaceParams) (n : Z) :
  representable p = true →
  enumerated (pixel_format p) →
  GetGLBytesPerPixel (pixel_format p) = Ok n →
  (block_edge (pixel_format p) | width p) →
  (block_edge (pixel_format p) | height p) →
  width p / block_edge (pixel_format p)
  * (height p / block_edge (pixel_format p)) * (8 * n) < 2 ^ 32 →
  ∃ s,
    SizeInBytes p = Ok s
    ∧ s * (block_edge (pixel_format p) * block_edge (pixel_format p))
      = width p * height p * n.
Proof.
  intros Hrep Hen Hn Hw Hh Hfit.
  destruct (representable_ranges p Hrep) as (_ & Hwr & Hhr & _).
  pose proof (block_edge_pos (pixel_format p)) as Hpos.
  destruct (SizeInBytes_enumerated p Hen)
    as (bpp & k & Hbpp & Hk & Hk16 & [(_ & _ & Hsize) | [Hnd _]]);
    [| exfalso; by apply Hnd].
  subst bpp. rewrite (GetGLBytesPerPixel_of_bpp _ k Hen Hbpp) in Hn.
  injection Hn as <-.
  eexists. split; [exact Hsize |].
  pose proof (u32_product_bytes (width p / block_edge (pixel_format p))
                (height p / block_edge (pixel_format p)) k) as Hprod.
  set (e := block_edge (pixel_format p)) in *.
  assert (Hwq : 0 <= width p / e) by (apply Z.div_pos; lia).
  assert (Hhq : 0 <= height p / e) by (apply Z.div_pos; lia).
  rewrite Z.mod_small in Hprod by nia.
  destruct Hw as [a Ha], Hh as [b Hb].
  rewrite Ha, Hb in *. rewrite !Z.div_mul in * by lia.
  nia.
Qed.

Lemma SizeInBytes_pixels_times_bytes_witness :
  ∃ s, SizeInBytes dxt45_16x8 = Ok s ∧ s * (4 * 4) = 16 * 8 * 16.
Proof.
  apply (SizeInBytes_pixels_times_bytes dxt45_16x8 16); try reflexivity.
  - exists 4. reflexivity.
  - exists 2. reflexivity.
Defined.

(** ** Surfaces derived from guest formats *)

(** X5. A surface whose format comes from a render-target format or from a
    GPU framebuffer format always has a size: the derived format has block
    edge 1, so whatever the width and the height neither assertion of
    [SizeInBytes] can fail. *)
Theorem framebuffer_surface_has_size (p : SurfaceParams) :
  (∃ rf, PixelFormatFromRenderTargetFormat rf = Ok (pixel_format p))
  ∨ (∃ gf, PixelFormatFromGPUPixelFormat gf = Ok (pixel_format p)) →
  GetCompressionFactor (pixel_format p) = Ok 1
  ∧ ∃ s, SizeInBytes p = Ok s.
Proof.
  intros Hfrom.
  assert (Hf : pixel_format p = ABGR8 ∨ pixel_format p = A2B10G10R10
               ∨ pixel_format p = RGBA16F ∨ pixel_format p = R11FG11FB10F).
  { destruct Hfrom as [[rf Hrf] | [gf Hgf]].
    - destruct rf; simpl in Hrf; try discriminate; injection Hrf as <-; tauto.
    - destruct gf; simpl in Hgf; try discriminate; injection Hgf as <-; tauto. }
  assert (Hen : enumerated (pixel_format p)).
  { apply enumerated_cases. destruct Hf as [-> | [-> | [-> | ->]]]; done. }
  assert (Hedge : block_edge (pixel_format p) = 1).
  { destruct Hf as [-> | [-> | [-> | ->]]]; reflexivity. }
  split.
  - rewrite (GetCompressionFactor_enumerated _ Hen). by rewrite Hedge.
  - destruct (SizeInBytes_enumerated p Hen)
      as (bpp & k & _ & _ & _ & [(_ & _ & Hsize) | [Hnd _]]); [by eexists |].
    exfalso. apply Hnd. rewrite Hedge. split; apply Z.divide_1_l.
Qed.

Lemma framebuffer_surface_has_size_witness :
  GetCompressionFactor (pixel_format rgba16f_8192) = Ok 1
  ∧ ∃ s, SizeInBytes rgba16f_8192 = Ok s.
Proof.
  apply (framebuffer_surface_has_size rgba16f_8192).
  left. exists Tegra.RGBA16_FLOAT. reflexivity.
Defined.

(** X6. The two derivations from a render-target format accept the same
    formats and stop with the same logged fault on the others; where they
    return, the component type is [Float] exactly for the two floating-point
    pixel formats and [UNorm] otherwise. *)
Theorem render_target_derivations_agree (rf : Tegra.RenderTargetFormat) :
  match PixelFormatFromRenderTargetFormat rf, ComponentTypeFromRenderTarget rf with
  | Ok pf, Ok ct =>
      (ct = Float ↔ pf = RGBA16F ∨ pf = R11FG11FB10F)
      ∧ (ct = UNorm ↔ pf = ABGR8 ∨ pf = A2B10G10R10)
  | Fault f1, Fault f2 => f1 = f2
  | _, _ => False
  end.
Proof.
  destruct rf; simpl; try done.
  all: split; split; try done; try (intros [? | ?]; done); tauto.
Qed.

(** X7. The render-target derivation is injective except for one pair: two
    render-target formats with the same derived pixel format are equal, or
    they are [RGBA8_UNORM] and [RGBA8_SRGB], which also get the same component
    type, so that no derived field tells them apart. *)
Theorem render_target_collisions (f g : Tegra.RenderTargetFormat) (pf : PixelFormat) :
  PixelFormatFromRenderTargetFormat f = Ok pf →
  PixelFormatFromRenderTargetFormat g = Ok pf →
  f = g
  ∨ (f ≠ g ∧ pf = ABGR8
     ∧ ComponentTypeFromRenderTarget f = ComponentTypeFromRenderTarget g
     ∧ (f = Tegra.RGBA8_UNORM ∨ f = Tegra.RGBA8_SRGB)
     ∧ (g = Tegra.RGBA8_UNORM ∨ g = Tegra.RGBA8_SRGB)).
Proof.
  intros Hf Hg.
  destruct f; simpl in Hf; try discriminate; injection Hf as <-;
    destruct g; simpl in Hg; try discriminate; try (by left).
  all: right; repeat split; try done; tauto.
Qed.

Lemma render_target_collisions_witness :
  Tegra.RGBA8_UNORM = Tegra.RGBA8_SRGB
  ∨ (Tegra.RGBA8_UNORM ≠ Tegra.RGBA8_SRGB ∧ ABGR8 = ABGR8
     ∧ ComponentTypeFromRenderTarget Tegra.RGBA8_UNORM
       = ComponentTypeFromRenderTarget Tegra.RGBA8_SRGB
     ∧ (Tegra.RGBA8_UNORM = Tegra.RGBA8_UNORM
        ∨ Tegra.RGBA8_UNORM = Tegra.RGBA8_SRGB)
     ∧ (Tegra.RGBA8_SRGB = Tegra.RGBA8_UNORM
        ∨ Tegra.RGBA8_SRGB = Tegra.RGBA8_SRGB)).
Proof.
  apply (render_target_collisions Tegra.RGBA8_UNORM Tegra.RGBA8_SRGB ABGR8);
    reflexivity.
Defined.

(** X8. Every pixel format that one of the three derivations returns, from a
    texture format, a render-target format or a GPU framebuffer format, is
    usable downstream: it classifies as [ColorTexture], it converts back to a
    texture format, and both table lookups return a positive value. *)
Theorem derived_format_is_usable (pf : PixelFormat) :
  (∃ tf, PixelFormatFromTextureFormat tf = Ok pf)
  ∨ (∃ rf, PixelFormatFromRenderTargetFormat rf = Ok pf)
  ∨ (∃ gf, PixelFormatFromGPUPixelFormat gf = Ok pf) →
  GetFormatType pf = Ok ColorTexture
  ∧ (∃ tf, TextureFormatFromPixelFormat pf = Ok tf)
  ∧ (∃ cf bpp,
       GetCompressionFactor pf = Ok cf ∧ GetFormatBpp pf = Ok bpp
       ∧ 0 < cf ∧ 0 < bpp).
Proof.
  intros Hfrom.
  assert (Hen : pf ≠ Max ∧ pf ≠ Invalid).
  { destruct Hfrom as [[tf Htf] | [[rf Hrf] | [gf Hgf]]].
    - destruct tf; simpl in Htf; try discriminate; injection Htf as <-; done.
    - destruct rf; simpl in Hrf; try discriminate; injection Hrf as <-; done.
    - destruct gf; simpl in Hgf; try discriminate; injection Hgf as <-; done. }
  destruct Hen as [HM HI].
  destruct pf; try congruence.
  all: split; [reflexivity |]; split; [eexists; reflexivity |].
  all: eexists; eexists; split; [reflexivity |]; split; [reflexivity |].
  all: split; reflexivity.
Qed.

Lemma derived_format_is_usable_witness :
  GetFormatType DXN1 = Ok ColorTexture
  ∧ (∃ tf, TextureFormatFromPixelFormat DXN1 = Ok tf)
  ∧ (∃ cf bpp,
       GetCompressionFactor DXN1 = Ok cf ∧ GetFormatBpp DXN1 = Ok bpp
       ∧ 0 < cf ∧ 0 < bpp).
Proof.
  apply (derived_format_is_usable DXN1).
  left. exists Tegra.Texture.DXN1. reflexivity.
Defined.

(** ** Further properties of IsOverlappingRegion *)

Lemma u64_wrapped (z : Z) : 2 ^ 64 <= z < 2 ^ 65 → u64 z = z - 2 ^ 64.
Proof.
  intros Hz. unfold u64.
  replace z with (z - 2 ^ 64 + 1 * 2 ^ 64) at 1 by lia.
  rewrite Z_mod_plus_full. apply Z.mod_small. lia.
Qed.

(** X11. For non-empty ranges whose end points do not wrap, the test answers
    true exactly when the two byte ranges share a byte or are adjacent (one
    ends where the other begins): it never misses a shared byte, and its only
    false positives are the adjacent neighbours. *)
Theorem IsOverlappingRegion_shared_or_adjacent
    (p : SurfaceParams) (region_addr region_size : Z) :
  representable p = true →
  in_u64 region_addr = true →
  in_u64 region_size = true →
  region_addr + region_size < 2 ^ 64 →
  addr p + size_in_bytes p < 2 ^ 64 →
  0 < region_size →
  0 < size_in_bytes p →
  IsOverlappingRegion p region_addr region_size = true
  ↔ share_byte region_addr region_size (addr p) (size_in_bytes p)
    ∨ region_addr + region_size = addr p
    ∨ addr p + size_in_bytes p = region_addr.
Proof.
  intros Hrep Hra Hrs Hr Hs Hpr Hps.
  destruct (representable_ranges p Hrep) as (Ha & _ & _ & Hsz).
  apply in_u64_range in Hra, Hrs.
  unfold IsOverlappingRegion, share_byte.
  rewrite !u64_small by lia.
  rewrite andb_true_iff, !Z.leb_le. split.
  - intros [H1 H2].
    destruct (Z.eq_dec (region_addr + region_size) (addr p)) as [| Hn1];
      [by right; left |].
    destruct (Z.eq_dec (addr p + size_in_bytes p) region_addr) as [| Hn2];
      [by right; right |].
    left. exists (Z.max region_addr (addr p)). lia.
  - intros [(x & Hx1 & Hx2) | [Heq | Heq]]; lia.
Qed.

Lemma IsOverlappingRegion_shared_or_adjacent_witness :
  IsOverlappingRegion abgr8_64x32 12288 16 = true
  ↔ share_byte 12288 16 (addr abgr8_64x32) (size_in_bytes abgr8_64x32)
    ∨ 12288 + 16 = addr abgr8_64x32
    ∨ addr abgr8_64x32 + size_in_bytes abgr8_64x32 = 12288.
Proof.
  apply (IsOverlappingRegion_shared_or_adjacent abgr8_64x32 12288 16);
    reflexivity.
Defined.

(** X12. A surface is reported as overlapping its own region exactly when its
    end address [addr + size_in_bytes] does not wrap around 2^64. *)
Theorem IsOverlappingRegion_self (p : SurfaceParams) :
  representable p = true →
  IsOverlappingRegion p (addr p) (size_in_bytes p) = true
  ↔ addr p + size_in_bytes p < 2 ^ 64.
Proof.
  intros Hrep.
  destruct (representable_ranges p Hrep) as (Ha & _ & _ & Hsz).
  unfold IsOverlappingRegion. rewrite andb_diag, Z.leb_le.
  destruct (Z.lt_ge_cases (addr p + size_in_bytes p) (2 ^ 64)) as [Hlt | Hge].
  - rewrite u64_small by lia. lia.
  - rewrite u64_wrapped by lia. lia.
Qed.

Lemma IsOverlappingRegion_self_witness :
  (IsOverlappingRegion abgr8_64x32 (addr abgr8_64x32)
     (size_in_bytes abgr8_64x32) = true
   ↔ addr abgr8_64x32 + size_in_bytes abgr8_64x32 < 2 ^ 64)
  ∧ (IsOverlappingRegion top_of_memory (addr top_of_memory)
       (size_in_bytes top_of_memory) = true
     ↔ addr top_of_memory + size_in_bytes top_of_memory < 2 ^ 64).
Proof.
  split.
  - apply (IsOverlappingRegion_self abgr8_64x32). reflexivity.
  - apply (IsOverlappingRegion_self top_of_memory). reflexivity.
Defined.

(** X13. Enlarging a query keeps its overlaps: if a region overlaps a surface,
    so does every longer region from the same start address whose end does
    not wrap. *)
Theorem IsOverlappingRegion_grows
    (p : SurfaceParams) (region_addr region_size larger_size : Z) :
  in_u64 region_addr = true →
  in_u64 region_size = true →
  region_size <= larger_size →
  region_addr + larger_size < 2 ^ 64 →
  IsOverlappingRegion p region_addr region_size = true →
  IsOverlappingRegion p region_addr larger_size = true.
Proof.
  intros Hra Hrs Hle Hfit.
  apply in_u64_range in Hra, Hrs.
  unfold IsOverlappingRegion.
  rewrite !andb_true_iff, !Z.leb_le.
  rewrite (u64_small (region_addr + region_size)),
    (u64_small (region_addr + larger_size)) by lia.
  intros [H1 H2]. split; [lia | done].
Qed.

Lemma IsOverlappingRegion_grows_witness :
  IsOverlappingRegion abgr8_64x32 2048 4096 = true.
Proof.
  apply (IsOverlappingRegion_grows abgr8_64x32 2048 2048 4096);
    reflexivity || lia.
Defined.
